(** * Audio Ingestion API (src/audio.py): a shallow embedding

    The FastAPI service keeps all of its state in the file system.  The
    file system is modelled as a finite map from path strings, spelled as
    the code builds them with [os.path.join], to nodes (a regular file with
    its bytes, or a directory).  Paths are not normalised: the code never
    normalises them either, and every path the handlers touch for a plain
    file name is [UPLOAD_DIR ++ "/" ++ name].

    Strings are Rocq [string]s (8-bit characters); Python's [str.lower] is
    modelled on ASCII letters.  Sizes in MiB are kept exactly as a number
    of hundredths: [round(n / 2**20, 2)] rounds an exactly representable
    double, so Python returns the double nearest to that decimal value. *)

From Stdlib Require Import Ascii String ZArith Lia Init.Byte.
From stdpp Require Import base gmap strings list fin_maps.

Open Scope string_scope.

(** ** [os.path] (posixpath) *)
Module PosixPath.

Definition sep : ascii := "/".
Definition extsep : ascii := ".".

(** [str.rfind] for one character: last index, or -1. *)
Fixpoint rfind_from (c : ascii) (s : string) (i : nat) (acc : Z) : Z :=
  match s with
  | EmptyString => acc
  | String d s' => rfind_from c s' (S i) (if ascii_dec c d then Z.of_nat i else acc)
  end.

Definition rfind (c : ascii) (s : string) : Z := rfind_from c s 0 (-1)%Z.

(** Python slices [s[i:j]] and [s[i:]] for [0 <= i <= j]. *)
Definition slice (s : string) (i j : Z) : string :=
  substring (Z.to_nat i) (Z.to_nat (j - i)) s.

Definition slice_from (s : string) (i : Z) : string :=
  substring (Z.to_nat i) (String.length s) s.

(** [genericpath._splitext(p, '/', None, '.')] *)
Definition splitext (p : string) : string * string :=
  let sepIndex := rfind sep p in
  let dotIndex := rfind extsep p in
  if (sepIndex <? dotIndex)%Z then
    (* skip all leading dots of the last component *)
    if existsb (fun c => if ascii_dec c extsep then false else true)
         (list_ascii_of_string (slice p (sepIndex + 1) dotIndex))
    then (slice p 0 dotIndex, slice_from p dotIndex)
    else (p, "")
  else (p, "").

Definition all_sep (s : string) : bool :=
  forallb (fun c => if ascii_dec c sep then true else false) (list_ascii_of_string s).

Fixpoint drop_seps (l : list ascii) : list ascii :=
  match l with
  | c :: l' => if ascii_dec c sep then drop_seps l' else l
  | [] => []
  end.

(** [s.rstrip('/')] *)
Definition rstrip_sep (s : string) : string :=
  string_of_list_ascii (rev (drop_seps (rev (list_ascii_of_string s)))).

(** [posixpath.basename] *)
Definition basename (p : string) : string :=
  slice_from p (rfind sep p + 1).

(** [posixpath.dirname] *)
Definition dirname (p : string) : string :=
  let i := (rfind sep p + 1)%Z in
  let head := slice p 0 i in
  if negb (String.eqb head "") && negb (all_sep head) then rstrip_sep head else head.

Fixpoint ends_with_sep (s : string) : bool :=
  match s with
  | EmptyString => false
  | String c EmptyString => if ascii_dec c sep then true else false
  | String _ s' => ends_with_sep s'
  end.

(** [posixpath.join(a, b)] for two arguments *)
Definition join (a b : string) : string :=
  if String.prefix "/" b then b
  else if String.eqb a "" || ends_with_sep a then a +:+ b
  else a +:+ "/" +:+ b.

End PosixPath.

Import PosixPath.

(** ** [str.lower] and [str.lstrip] *)
Definition lower_ascii (c : ascii) : ascii :=
  let n := nat_of_ascii c in
  if (65 <=? n)%nat && (n <=? 90)%nat then ascii_of_nat (n + 32) else c.

Fixpoint lower (s : string) : string :=
  match s with
  | EmptyString => EmptyString
  | String c s' => String (lower_ascii c) (lower s')
  end.

Fixpoint lstrip (c : ascii) (s : string) : string :=
  match s with
  | String d s' => if ascii_dec c d then lstrip c s' else s
  | EmptyString => EmptyString
  end.

(** ** The file system *)
Inductive node :=
| File (contents : list byte)
| Dir.

Abbreviation fs := (gmap string node).

(** [open(p, 'wb').write(data)].  [io_error] is a failure the environment
    injects (disk full, permissions, an invalid name); otherwise the call
    fails exactly when the target is a directory or its parent is not one,
    and succeeds by replacing whatever file was there.  Paths are map keys
    taken literally: ["."] and [".."] components and absolute aliases of a
    directory are not resolved, so such paths only reach what is stored
    under their literal spelling.  A failed write is modelled as leaving the
    disk unchanged, whereas [open(p, 'wb')] may already have created or
    truncated [p] when a later [write] fails. *)
Definition open_write (io_error : option string) (s : fs) (p : string)
    (data : list byte) : string + fs :=
  match io_error with
  | Some e => inl e
  | None =>
    match s !! p with
    | Some Dir => inl ("[Errno 21] Is a directory: '" +:+ p +:+ "'")
    | _ =>
      let d := dirname p in
      if String.eqb d "" then inr (<[p := File data]> s) else
      match s !! d with
      | Some Dir => inr (<[p := File data]> s)
      | Some (File _) => inl ("[Errno 20] Not a directory: '" +:+ p +:+ "'")
      | None => inl ("[Errno 2] No such file or directory: '" +:+ p +:+ "'")
      end
    end
  end.

Definition path_exists (s : fs) (p : string) : bool :=
  match s !! p with Some _ => true | None => false end.

Definition isfile (s : fs) (p : string) : bool :=
  match s !! p with Some (File _) => true | _ => false end.

(** [Path(d).mkdir(parents=True, exist_ok=True)]; the parent of the
    storage directory is the working directory, which exists.  Permission,
    read-only and space errors of the real call are not modelled. *)
Definition mkdir (s : fs) (d : string) : string + fs :=
  match s !! d with
  | Some Dir => inr s
  | Some (File _) => inl ("[Errno 17] File exists: '" +:+ d +:+ "'")
  | None => inr (<[d := Dir]> s)
  end.

Fixpoint strip_prefix (p s : string) : option string :=
  match p, s with
  | EmptyString, _ => Some s
  | String a p', String b s' => if ascii_dec a b then strip_prefix p' s' else None
  | String _ _, EmptyString => None
  end.

Definition has_sep (s : string) : bool :=
  existsb (fun c => if ascii_dec c sep then true else false) (list_ascii_of_string s).

(** A single path component: what [os.listdir] can return. *)
Definition is_component (n : string) : bool :=
  negb (String.eqb n "") && negb (has_sep n).

Definition child_name (d k : string) : option string :=
  match strip_prefix (d +:+ "/") k with
  | Some n => if is_component n then Some n else None
  | None => None
  end.

(** [os.listdir(d)]: the names of the entries directly inside [d], in the
    map's order (Python's order is the directory's, also unspecified).  It
    fails only when [d] is missing or not a directory; an unreadable
    directory is not modelled. *)
Definition listdir (s : fs) (d : string) : option (list string) :=
  match s !! d with
  | Some Dir => Some (omap (fun kv : string * node => child_name d kv.1) (map_to_list s))
  | _ => None
  end.

(** ** Module constants *)
Definition UPLOAD_DIR : string := "./uploaded_audio".

Definition SUPPORTED_AUDIO_FORMATS : list string :=
  [".mp3"; ".wav"; ".m4a"; ".flac"; ".ogg"; ".aac"; ".wma"; ".opus"].

(** Import time: [Path(UPLOAD_DIR).mkdir(parents=True, exist_ok=True)]. *)
Definition startup (s : fs) : string + fs := mkdir s UPLOAD_DIR.

(** ** Responses *)
Inductive response (A : Type) :=
| Ok (a : A)
| HTTPError (status_code : Z) (detail : string).
Arguments Ok {A} _.
Arguments HTTPError {A} _ _.

Record UploadResponse := {
  status : string;
  filename : string;
  file_size_mb : Z;   (** hundredths of a MiB *)
  file_path : string;
  audio_format : string;
  message : string
}.

Record StatusResponse := {
  st_status : string;
  st_message : string;
  total_files : option Z
}.

Record FileEntry := {
  entry_filename : string;
  size_mb : Z;        (** hundredths of a MiB *)
  path : string
}.

Record FilesResponse := {
  files_total : Z;
  files : list FileEntry
}.

(** [fastapi.UploadFile]: the client's file name and the body [read()] returns. *)
Record UploadFile := {
  upload_filename : string;
  upload_bytes : list byte
}.

(** [round(n / (1024 * 1024), 2)] in hundredths: the quotient is exact in
    binary, and CPython rounds it correctly, ties to even. *)
Definition round_half_even (num den : Z) : Z :=
  let q := (num / den)%Z in
  let r := (num mod den)%Z in
  if (2 * r <? den)%Z then q
  else if (den <? 2 * r)%Z then (q + 1)%Z
  else if Z.even q then q else (q + 1)%Z.

Definition round2_mb (nbytes : Z) : Z := round_half_even (100 * nbytes) (1024 * 1024).

(** ** [parse_audio] *)
Definition parse_audio (io_error : option string) (s : fs)
    (file_content : list byte) (file_name : string) : string + (string * fs) :=
  let output_path := join UPLOAD_DIR file_name in
  match open_write io_error s output_path file_content with
  | inr s' => inr (output_path, s')
  | inl e => inl ("Failed to save uploaded Audio: " +:+ e)
  end.

Definition MAX_FILE_SIZE : Z := (100 * 1024 * 1024)%Z.

(** [', '.join(SUPPORTED_AUDIO_FORMATS)]: CPython's set order depends on
    string hashing; the literal's order is used here. *)
Definition unsupported_detail : string :=
  "Unsupported audio format. Supported formats: " +:+
  String.concat ", " SUPPORTED_AUDIO_FORMATS.

(** [os.path.splitext(file.filename)[1].lower()] *)
Definition file_extension_of (name : string) : string := lower (splitext name).2.

(** ** [POST /upload] *)
Definition upload_audio (io_error : option string) (s : fs) (file : UploadFile)
    : response UploadResponse * fs :=
  let file_extension := file_extension_of (upload_filename file) in
  if negb (bool_decide (file_extension ∈ SUPPORTED_AUDIO_FORMATS)) then
    (HTTPError 400 unsupported_detail, s)
  else
  let file_content := upload_bytes file in
  if (MAX_FILE_SIZE <? Z.of_nat (length file_content))%Z then
    (HTTPError 413 "File too large. Maximum size is 100.0MB", s)
  else if (Z.of_nat (length file_content) =? 0)%Z then
    (HTTPError 400 "Empty file uploaded", s)
  else
  let file_size_bytes := Z.of_nat (length file_content) in
  match parse_audio io_error s file_content (upload_filename file) with
  | inr (file_path, s') =>
    (Ok {| status := "success";
           filename := basename file_path;
           file_size_mb := round2_mb file_size_bytes;
           file_path := file_path;
           audio_format := lstrip "." file_extension;
           message := "Successfully uploaded audio file: " +:+ basename file_path |}, s')
  | inl e => (HTTPError 500 ("Internal server error: " +:+ e), s)
  end.

(** ** [GET /health] *)
Definition health_check (s : fs) : response StatusResponse * fs :=
  match (if path_exists s UPLOAD_DIR then inr s else mkdir s UPLOAD_DIR) with
  | inl _ => (HTTPError 503 "Service unhealthy", s)
  | inr s1 =>
    match listdir s1 UPLOAD_DIR with
    | Some names =>
      (Ok {| st_status := "healthy";
             st_message := "Audio Ingestion API is running";
             total_files := Some (Z.of_nat (length
                 (List.filter (fun f => isfile s1 (join UPLOAD_DIR f)) names))) |}, s1)
    | None => (HTTPError 503 "Service unhealthy", s1)
    end
  end.

(** ** [GET /files] *)
Definition list_files (s : fs) : response FilesResponse :=
  match listdir s UPLOAD_DIR with
  | None =>
    match s !! UPLOAD_DIR with
    | Some (File _) => HTTPError 500 ("Failed to list files: [Errno 20] Not a directory: '"
                                      +:+ UPLOAD_DIR +:+ "'")
    | _ => HTTPError 500 ("Failed to list files: [Errno 2] No such file or directory: '"
                          +:+ UPLOAD_DIR +:+ "'")
    end
  | Some names =>
    let fs_ := omap (fun fn =>
                 let file_path := join UPLOAD_DIR fn in
                 match s !! file_path with
                 | Some (File c) =>
                   Some {| entry_filename := fn;
                           size_mb := round2_mb (Z.of_nat (length c));
                           path := file_path |}
                 | _ => None
                 end) names in
    Ok {| files_total := Z.of_nat (length fs_); files := fs_ |}
  end.

(** The storage-directory entries a user can see: the regular files whose
    path is [UPLOAD_DIR/name] for a single component [name]. *)
Definition regular_in (d : string) (kv : string * node) : bool :=
  match child_name d kv.1, kv.2 with
  | Some _, File _ => true
  | _, _ => false
  end.

(** The number of regular files present in the storage directory. *)
Definition stored_file_count (s : fs) : nat :=
  match s !! UPLOAD_DIR with
  | Some Dir => size (filter (fun kv => regular_in UPLOAD_DIR kv = true) s)
  | _ => 0
  end.

(** Every entry hangs below an existing directory, as on a real disk. *)
Definition wf (s : fs) : Prop :=
  map_Forall (fun k _ => dirname k = "" \/ s !! dirname k = Some Dir) s.

#[global] Instance byte_eq_dec : EqDecision byte := Byte.byte_eq_dec.
#[global] Instance node_eq_dec : EqDecision node.
Proof. solve_decision. Defined.

(** ** Sample states *)
Definition fs0 : fs := {[ "." := Dir; UPLOAD_DIR := Dir ]}.

Definition ten_bytes : list byte :=
  [x00; x01; x02; x03; x04; x05; x06; x07; x08; x09].

(** A storage directory holding two files and a subdirectory. *)
Definition fs_two : fs :=
  {[ "." := Dir; UPLOAD_DIR := Dir;
     "./uploaded_audio/a.mp3" := File ten_bytes;
     "./uploaded_audio/b.wav" := File [x00];
     "./uploaded_audio/sub" := Dir;
     "./uploaded_audio/sub/c.mp3" := File [x00] ]}.

Definition success_status (s : fs) : StatusResponse :=
  {| st_status := "healthy"; st_message := "Audio Ingestion API is running";
     total_files := Some (Z.of_nat (stored_file_count s)) |}.

(** The listing [GET /files] returns, or an empty one on error. *)
Definition listing_of (s : fs) : FilesResponse :=
  match list_files s with
  | Ok lr => lr
  | HTTPError _ _ => {| files_total := 0; files := [] |}
  end.

Example stored_two : stored_file_count fs_two = 2%nat.
Proof. vm_compute. reflexivity. Qed.

Example splitext_song : splitext "song.mp3" = ("song", ".mp3").
Proof. reflexivity. Qed.
Example splitext_dot : splitext ".mp3" = (".mp3", "").
Proof. reflexivity. Qed.
Example splitext_dots : splitext "a.b/..x.MP3" = ("a.b/..x", ".MP3").
Proof. reflexivity. Qed.
Example dirname_ex : dirname "./uploaded_audio/x.mp3" = "./uploaded_audio".
Proof. reflexivity. Qed.
Example join_ex : join UPLOAD_DIR "/tmp/a.mp3" = "/tmp/a.mp3".
Proof. reflexivity. Qed.
Example round_ex : round2_mb 131072 = 12%Z.
Proof. reflexivity. Qed.
Example upload_ex :
  fst (upload_audio None fs0 {| upload_filename := "song.MP3"; upload_bytes := ten_bytes |})
  = Ok {| status := "success"; filename := "song.MP3"; file_size_mb := 0;
          file_path := "./uploaded_audio/song.MP3"; audio_format := "mp3";
          message := "Successfully uploaded audio file: song.MP3" |}.
Proof. vm_compute. reflexivity. Qed.
Example wf_fs0 : wf fs0.
Proof. apply (bool_decide_unpack _). vm_compute. reflexivity. Qed.
Example health_fs0 : fst (health_check fs0) = Ok {| st_status := "healthy";
  st_message := "Audio Ingestion API is running"; total_files := Some 0%Z |}.
Proof. vm_compute. reflexivity. Qed.

(** ** Lemmas on paths *)

Lemma rfind_from_app c s1 s2 i acc :
  rfind_from c (s1 +:+ s2) i acc =
  rfind_from c s2 (i + String.length s1) (rfind_from c s1 i acc).
Proof.
  revert i acc; induction s1 as [|d s1 IH]; intros i acc; simpl.
  - by rewrite Nat.add_0_r.
  - rewrite IH. by rewrite Nat.add_succ_r.
Qed.

Lemma rfind_from_no_sep s i acc :
  has_sep s = false -> rfind_from sep s i acc = acc.
Proof.
  revert i acc; induction s as [|d s IH]; intros i acc; cbn [rfind_from]; [done|].
  unfold has_sep; cbn [list_ascii_of_string existsb].
  intros [Hd Hs]%orb_false_elim.
  destruct (ascii_dec d sep) as [->|Hd']; [done|].
  destruct (ascii_dec sep d); [congruence|]. by apply IH.
Qed.

Lemma substring_0_all s m :
  (String.length s <= m)%nat -> substring 0 m s = s.
Proof.
  revert m; induction s as [|d s IH]; intros m Hm; simpl.
  - by destruct m.
  - destruct m as [|m]; simpl in Hm; [lia|]. f_equal. apply IH. lia.
Qed.

Lemma strip_prefix_app p s : strip_prefix p (p +:+ s) = Some s.
Proof.
  induction p as [|a p IH]; simpl; [done|].
  destruct (ascii_dec a a); [done|congruence].
Qed.

Lemma strip_prefix_Some p k n : strip_prefix p k = Some n -> k = p +:+ n.
Proof.
  revert k; induction p as [|a p IH]; intros k; simpl.
  - by intros [= ->].
  - destruct k as [|b k]; [done|]. destruct (ascii_dec a b) as [->|]; [|done].
    intros H. by rewrite (IH k H).
Qed.

Lemma length_string_app s1 s2 :
  String.length (s1 +:+ s2) = (String.length s1 + String.length s2)%nat.
Proof. induction s1; simpl; by f_equal. Qed.

(** The path of a file directly inside the storage directory. *)
Definition in_upload_dir (n : string) : string := UPLOAD_DIR +:+ "/" +:+ n.

Lemma join_upload_dir n : has_sep n = false -> join UPLOAD_DIR n = in_upload_dir n.
Proof.
  intros Hn. unfold join. destruct n as [|c n]; [reflexivity|].
  unfold has_sep in Hn; cbn [list_ascii_of_string existsb] in Hn.
  apply orb_false_elim in Hn as [Hc _].
  cbn [String.prefix]. destruct (ascii_dec "/" c) as [<-|]; [done|]. reflexivity.
Qed.

Lemma rfind_in_upload_dir n :
  has_sep n = false -> rfind sep (in_upload_dir n) = 16%Z.
Proof.
  intros Hn. unfold rfind, in_upload_dir.
  rewrite (rfind_from_app _ UPLOAD_DIR ("/" +:+ n)).
  change ("/" +:+ n) with ("/" +:+ n) at 1. simpl.
  by apply rfind_from_no_sep.
Qed.

Lemma slice_in_upload_dir n : slice (in_upload_dir n) 0 17 = UPLOAD_DIR +:+ "/".
Proof. by destruct n. Qed.

Lemma dirname_in_upload_dir n :
  has_sep n = false -> dirname (in_upload_dir n) = UPLOAD_DIR.
Proof.
  intros Hn. unfold dirname. rewrite rfind_in_upload_dir by done.
  change (16 + 1)%Z with 17%Z. rewrite slice_in_upload_dir. reflexivity.
Qed.


Lemma child_name_in_upload_dir n :
  is_component n = true -> child_name UPLOAD_DIR (in_upload_dir n) = Some n.
Proof.
  intros Hn. unfold child_name, in_upload_dir.
  change (UPLOAD_DIR +:+ "/" +:+ n) with ((UPLOAD_DIR +:+ "/") +:+ n).
  by rewrite strip_prefix_app, Hn.
Qed.

Lemma child_name_Some k n :
  child_name UPLOAD_DIR k = Some n -> k = in_upload_dir n /\ is_component n = true.
Proof.
  unfold child_name. destruct (strip_prefix _ k) as [m|] eqn:E; [|done].
  destruct (is_component m) eqn:Hm; [|done]. intros [= <-].
  split; [|done]. apply strip_prefix_Some in E. rewrite E. reflexivity.
Qed.

Lemma is_component_no_sep n : is_component n = true -> has_sep n = false.
Proof. unfold is_component. by intros [_ ?%negb_true_iff]%andb_prop. Qed.

Lemma in_upload_dir_ne n : in_upload_dir n <> UPLOAD_DIR.
Proof.
  intros H. apply (f_equal String.length) in H. unfold in_upload_dir in H.
  rewrite !length_string_app in H. simpl in H. lia.
Qed.

(** ** Lemmas on the handlers *)

Lemma open_write_inr io s p c s' :
  open_write io s p c = inr s' ->
  io = None /\ s !! p <> Some Dir /\
  (dirname p = "" \/ s !! dirname p = Some Dir) /\ s' = <[p := File c]> s.
Proof.
  unfold open_write. destruct io; [done|].
  destruct (s !! p) as [[]|] eqn:Hp;
    destruct (String.eqb_spec (dirname p) "");
    try destruct (s !! dirname p) as [[]|] eqn:Hd; intros H; inversion H; subst;
    repeat split; auto; congruence.
Qed.

Lemma open_write_None_inr s p c :
  s !! p <> Some Dir -> (dirname p = "" \/ s !! dirname p = Some Dir) ->
  open_write None s p c = inr (<[p := File c]> s).
Proof.
  intros Hp Hd. unfold open_write.
  destruct (s !! p) as [[c0|]|]; try congruence;
    (destruct (String.eqb_spec (dirname p) ""); [done|]);
    (destruct Hd as [Hd | ->]; [done|reflexivity]).
Qed.

(** The response [upload_audio] builds once the file is saved. *)
Definition success_response (file : UploadFile) : UploadResponse :=
  let file_path := join UPLOAD_DIR (upload_filename file) in
  {| status := "success";
     filename := basename file_path;
     file_size_mb := round2_mb (Z.of_nat (length (upload_bytes file)));
     file_path := file_path;
     audio_format := lstrip "." (file_extension_of (upload_filename file));
     message := "Successfully uploaded audio file: " +:+ basename file_path |}.

Lemma upload_audio_checked io s file :
  file_extension_of (upload_filename file) ∈ SUPPORTED_AUDIO_FORMATS ->
  (0 < Z.of_nat (length (upload_bytes file)) <= MAX_FILE_SIZE)%Z ->
  upload_audio io s file =
  match open_write io s (join UPLOAD_DIR (upload_filename file)) (upload_bytes file) with
  | inr s' => (Ok (success_response file), s')
  | inl e => (HTTPError 500 ("Internal server error: Failed to save uploaded Audio: " +:+ e), s)
  end.
Proof.
  intros Hext Hlen. unfold upload_audio. rewrite bool_decide_true by done. simpl.
  destruct (Z.ltb_spec MAX_FILE_SIZE (Z.of_nat (length (upload_bytes file)))); [lia|].
  destruct (Z.eqb_spec (Z.of_nat (length (upload_bytes file))) 0); [lia|].
  unfold parse_audio. by destruct (open_write _ _ _ _).
Qed.

Lemma upload_audio_Ok_inv io s file r s' :
  upload_audio io s file = (Ok r, s') ->
  file_extension_of (upload_filename file) ∈ SUPPORTED_AUDIO_FORMATS /\
  (0 < Z.of_nat (length (upload_bytes file)) <= MAX_FILE_SIZE)%Z /\
  open_write io s (join UPLOAD_DIR (upload_filename file)) (upload_bytes file) = inr s' /\
  r = success_response file.
Proof.
  unfold upload_audio.
  destruct (bool_decide_reflect (file_extension_of (upload_filename file)
              ∈ SUPPORTED_AUDIO_FORMATS)) as [Hext|]; simpl; [|done].
  destruct (Z.ltb_spec MAX_FILE_SIZE (Z.of_nat (length (upload_bytes file)))); [done|].
  destruct (Z.eqb_spec (Z.of_nat (length (upload_bytes file))) 0); [done|].
  unfold parse_audio.
  destruct (open_write _ _ _ _) eqn:E; intros Hres; inversion Hres; subst.
  repeat split; auto; lia.
Qed.

Lemma empty_extension_unsupported : "" ∉ SUPPORTED_AUDIO_FORMATS.
Proof. apply (bool_decide_unpack _). vm_compute. reflexivity. Qed.

Lemma supported_nonempty_name name :
  file_extension_of name ∈ SUPPORTED_AUDIO_FORMATS -> name <> "".
Proof. intros H ->. by apply empty_extension_unsupported. Qed.


Lemma round_half_even_spec num den :
  (0 < den)%Z -> (2 * Z.abs (num - round_half_even num den * den) <= den)%Z.
Proof.
  intros Hden. unfold round_half_even.
  pose proof (Z.div_mod num den ltac:(lia)) as Hdm.
  pose proof (Z.mod_pos_bound num den Hden) as Hr.
  set (q := (num / den)%Z) in *. set (r := (num mod den)%Z) in *.
  destruct (Z.ltb_spec (2 * r) den); [lia|].
  destruct (Z.ltb_spec den (2 * r)); [lia|].
  destruct (Z.even q); lia.
Qed.

Lemma length_filter_bool {A} (f : A -> bool) (l : list A) :
  length (filter (fun x => f x = true) l) = length (List.filter f l).
Proof.
  induction l as [|x l IH]; [done|]. rewrite filter_cons. simpl.
  destruct (f x); case_decide; simpl; congruence.
Qed.

Lemma size_filter_regular (m : fs) :
  size (filter (fun kv => regular_in UPLOAD_DIR kv = true) m) =
  length (List.filter (regular_in UPLOAD_DIR) (map_to_list m)).
Proof.
  rewrite <-length_map_to_list, map_filter_alt, map_to_list_to_map.
  - apply length_filter_bool.
  - eapply sublist_NoDup; [apply (NoDup_fst_map_to_list m)|].
    apply fmap_sublist, sublist_filter.
Qed.

(** What [health_check] counts: the names [os.listdir] returns that
    [os.path.isfile] accepts are the regular files directly inside. *)
Lemma count_listed_files (m : fs) (l : list (string * node)) :
  (forall kv, kv ∈ l -> m !! kv.1 = Some kv.2) ->
  length (List.filter (fun f => isfile m (join UPLOAD_DIR f))
            (omap (fun kv : string * node => child_name UPLOAD_DIR kv.1) l)) =
  length (List.filter (regular_in UPLOAD_DIR) l).
Proof.
  induction l as [|[k v] l IH]; intros Hl; [done|].
  assert (Hk : m !! k = Some v) by (apply (Hl (k, v)), elem_of_cons; by left).
  assert (IH' := IH (fun kv Hkv => Hl kv (proj2 (elem_of_cons _ _ _) (or_intror Hkv)))).
  cbn -[isfile regular_in join child_name].
  destruct (child_name UPLOAD_DIR k) as [n|] eqn:Hc.
  - destruct (child_name_Some _ _ Hc) as [-> Hn].
    cbn -[isfile regular_in join child_name].
    rewrite join_upload_dir by (by apply is_component_no_sep).
    assert (Hr : regular_in UPLOAD_DIR (in_upload_dir n, v) = isfile m (in_upload_dir n))
      by (unfold regular_in, isfile; simpl; rewrite Hc, Hk; by destruct v).
    rewrite Hr. destruct (isfile m (in_upload_dir n)); simpl; congruence.
  - assert (Hr : regular_in UPLOAD_DIR (k, v) = false)
      by (unfold regular_in; simpl; by rewrite Hc).
    rewrite Hr. exact IH'.
Qed.

Lemma no_regular_below_missing_dir (s : fs) :
  wf s -> s !! UPLOAD_DIR = None ->
  length (List.filter (regular_in UPLOAD_DIR) (map_to_list (<[UPLOAD_DIR := Dir]> s))) = 0.
Proof.
  intros Hwf HD.
  assert (Hall : forall kv, kv ∈ map_to_list (<[UPLOAD_DIR := Dir]> s) ->
                 regular_in UPLOAD_DIR kv = false).
  { intros [k v] Hkv%elem_of_map_to_list. unfold regular_in; simpl.
    destruct (child_name UPLOAD_DIR k) as [n|] eqn:Hc; [|done].
    destruct (child_name_Some _ _ Hc) as [-> Hn].
    rewrite lookup_insert_ne in Hkv
      by (intros Heq; apply (in_upload_dir_ne n); by rewrite Heq).
    destruct (Hwf _ _ Hkv) as [Hd | Hd];
      rewrite dirname_in_upload_dir in Hd by (by apply is_component_no_sep);
      [done | congruence]. }
  induction (map_to_list (<[UPLOAD_DIR := Dir]> s)) as [|kv l IH]; [done|].
  simpl. rewrite (Hall kv) by (apply elem_of_cons; by left). apply IH.
  intros kv' H'. apply Hall, elem_of_cons. by right.
Qed.

(** ** Claims *)

(** C2: an upload whose lower-cased extension is not in the allow-list is
    answered with 400, whatever its content, and nothing is written. *)
Theorem upload_rejects_unsupported_extension io s file :
  file_extension_of (upload_filename file) ∉ SUPPORTED_AUDIO_FORMATS ->
  upload_audio io s file = (HTTPError 400 unsupported_detail, s).
Proof. intros H. unfold upload_audio. by rewrite bool_decide_false. Qed.

Lemma upload_rejects_unsupported_extension_witness :
  (file_extension_of "notes.txt" ∉ SUPPORTED_AUDIO_FORMATS) /\
  upload_audio None fs0 {| upload_filename := "notes.txt"; upload_bytes := ten_bytes |}
  = (HTTPError 400 unsupported_detail, fs0).
Proof.
  assert (H : file_extension_of "notes.txt" ∉ SUPPORTED_AUDIO_FORMATS)
    by (apply (bool_decide_unpack _); vm_compute; reflexivity).
  split; [exact H|].
  exact (upload_rejects_unsupported_extension None fs0
           {| upload_filename := "notes.txt"; upload_bytes := ten_bytes |} H).
Defined.

(** C3: with an allowed extension, the answer is 413 exactly when the body
    is longer than 100 MiB; a body of exactly 104857600 bytes passes. *)
Theorem upload_413_iff_too_large io s file :
  file_extension_of (upload_filename file) ∈ SUPPORTED_AUDIO_FORMATS ->
  (exists d, fst (upload_audio io s file) = HTTPError 413 d) <->
  (104857600 < Z.of_nat (length (upload_bytes file)))%Z.
Proof.
  intros Hext. unfold upload_audio. rewrite bool_decide_true by done. simpl.
  change MAX_FILE_SIZE with 104857600%Z.
  destruct (Z.ltb_spec 104857600 (Z.of_nat (length (upload_bytes file)))).
  - split; [done|]. intros _. by eexists.
  - split; [|lia]. intros [d Hd]. exfalso.
    destruct (Z.eqb _ 0); [discriminate|].
    unfold parse_audio in Hd. destruct (open_write _ _ _ _); discriminate.
Qed.

Lemma upload_413_iff_too_large_witness :
  ((exists d, fst (upload_audio None fs0
      {| upload_filename := "song.mp3"; upload_bytes := ten_bytes |}) = HTTPError 413 d) <->
   (104857600 < Z.of_nat (length ten_bytes))%Z).
Proof.
  apply (upload_413_iff_too_large None fs0
           {| upload_filename := "song.mp3"; upload_bytes := ten_bytes |}).
  apply (bool_decide_unpack _). vm_compute. reflexivity.
Defined.

(** C4: a zero-byte upload is answered with 400 and leaves the file
    system as it was. *)
Theorem upload_empty_rejected io s name :
  exists d, upload_audio io s {| upload_filename := name; upload_bytes := [] |}
            = (HTTPError 400 d, s).
Proof.
  unfold upload_audio. simpl.
  destruct (bool_decide _); simpl; by eexists.
Qed.

(** C9: when saving fails with the error [e] after every check passed, the
    answer is 500 and its detail embeds [e]. *)
Theorem upload_write_failure_500 io s file e :
  file_extension_of (upload_filename file) ∈ SUPPORTED_AUDIO_FORMATS ->
  (0 < Z.of_nat (length (upload_bytes file)) <= MAX_FILE_SIZE)%Z ->
  open_write io s (join UPLOAD_DIR (upload_filename file)) (upload_bytes file) = inl e ->
  upload_audio io s file =
  (HTTPError 500 ("Internal server error: Failed to save uploaded Audio: " +:+ e), s).
Proof.
  intros Hext Hlen Hw. rewrite upload_audio_checked by done. by rewrite Hw.
Qed.

Lemma upload_write_failure_500_witness :
  upload_audio (Some "[Errno 28] No space left on device") fs0
    {| upload_filename := "song.mp3"; upload_bytes := ten_bytes |} =
  (HTTPError 500 ("Internal server error: Failed to save uploaded Audio: " +:+
                  "[Errno 28] No space left on device"), fs0).
Proof.
  apply upload_write_failure_500; [| unfold MAX_FILE_SIZE; cbn; lia | reflexivity].
  apply (bool_decide_unpack _). vm_compute. reflexivity.
Defined.

(** C10: a file name without extension, such as [".mp3"] whose only dot
    leads the name, is answered with 400. *)
Theorem upload_rejects_no_extension io s file :
  (splitext (upload_filename file)).2 = "" ->
  upload_audio io s file = (HTTPError 400 unsupported_detail, s).
Proof.
  intros H. unfold upload_audio, file_extension_of. rewrite H.
  rewrite bool_decide_false by exact empty_extension_unsupported. reflexivity.
Qed.

Lemma upload_rejects_no_extension_witness :
  (splitext ".mp3").2 = "" /\
  upload_audio None fs0 {| upload_filename := ".mp3"; upload_bytes := ten_bytes |}
  = (HTTPError 400 unsupported_detail, fs0).
Proof.
  split; [reflexivity|].
  apply (upload_rejects_no_extension None fs0
           {| upload_filename := ".mp3"; upload_bytes := ten_bytes |}).
  reflexivity.
Defined.






Definition fs_no_storage : fs := {[ "." := Dir ]}.

Definition song_file : UploadFile :=
  {| upload_filename := "song.mp3"; upload_bytes := ten_bytes |}.

(** C5: the upload does not create a missing storage directory (only the
    import-time [mkdir] and [GET /health] do), so a valid upload then fails
    with 500. *)
Lemma upload_missing_storage_dir :
  upload_audio None fs_no_storage song_file =
    (HTTPError 500 ("Internal server error: Failed to save uploaded Audio: " +:+
       "[Errno 2] No such file or directory: './uploaded_audio/song.mp3'"),
     fs_no_storage) /\
  snd (health_check fs_no_storage) !! UPLOAD_DIR = Some Dir.
Proof. split; vm_compute; reflexivity. Qed.

(** C6: two successful uploads under one name leave the second content at
    its path, and the state is the one uploading the second content alone
    produces. *)
Theorem upload_same_name_overwrites io1 io2 s name A B r1 s1 r2 s2 :
  upload_audio io1 s {| upload_filename := name; upload_bytes := A |} = (Ok r1, s1) ->
  upload_audio io2 s1 {| upload_filename := name; upload_bytes := B |} = (Ok r2, s2) ->
  s2 !! join UPLOAD_DIR name = Some (File B) /\
  upload_audio None s {| upload_filename := name; upload_bytes := B |} = (Ok r2, s2).
Proof.
  intros H1 H2.
  apply upload_audio_Ok_inv in H1 as (Hext1 & Hlen1 & Hw1 & ->).
  apply upload_audio_Ok_inv in H2 as (Hext2 & Hlen2 & Hw2 & ->).
  simpl in *.
  apply open_write_inr in Hw1 as (-> & Hp1 & Hd1 & ->).
  apply open_write_inr in Hw2 as (-> & Hp2 & Hd2 & ->).
  split; [by rewrite lookup_insert_eq|].
  rewrite upload_audio_checked by done. cbn [upload_filename upload_bytes].
  rewrite open_write_None_inr; [by rewrite insert_insert_eq | done |].
  destruct Hd2 as [Hd2 | Hd2]; [by left|right].
  rewrite lookup_insert in Hd2. by case_decide.
Qed.

Definition song_b : list byte := [x41].

Lemma upload_same_name_overwrites_witness :
  <[ "./uploaded_audio/song.mp3" := File song_b ]> fs0 !! join UPLOAD_DIR "song.mp3"
    = Some (File song_b) /\
  upload_audio None fs0 {| upload_filename := "song.mp3"; upload_bytes := song_b |}
    = (Ok (success_response {| upload_filename := "song.mp3"; upload_bytes := song_b |}),
       <[ "./uploaded_audio/song.mp3" := File song_b ]> fs0).
Proof.
  apply (upload_same_name_overwrites None None fs0 "song.mp3" ten_bytes song_b
           (success_response song_file)
           (<[ "./uploaded_audio/song.mp3" := File ten_bytes ]> fs0)
           (success_response {| upload_filename := "song.mp3"; upload_bytes := song_b |})
           (<[ "./uploaded_audio/song.mp3" := File song_b ]> fs0));
    vm_compute; reflexivity.
Defined.

(** C7: a successful [GET /health] reports "healthy" and the number of
    regular files directly inside the storage directory at call time. *)
Theorem health_counts_stored_files s r s' :
  wf s -> health_check s = (Ok r, s') ->
  st_status r = "healthy" /\ total_files r = Some (Z.of_nat (stored_file_count s)).
Proof.
  intros Hwf. unfold health_check, path_exists, stored_file_count, mkdir.
  destruct (s !! UPLOAD_DIR) as [[c|]|] eqn:HD.
  - unfold listdir. rewrite HD. discriminate.
  - unfold listdir. rewrite HD. intros [= <- <-]. split; [done|]. simpl.
    rewrite count_listed_files by (intros [k v] Hkv; by apply elem_of_map_to_list).
    by rewrite size_filter_regular.
  - unfold listdir. rewrite lookup_insert_eq. intros [= <- <-]. split; [done|]. simpl.
    rewrite count_listed_files by (intros [k v] Hkv; by apply elem_of_map_to_list).
    by rewrite no_regular_below_missing_dir.
Qed.

Lemma health_counts_stored_files_witness :
  st_status (success_status fs_two) = "healthy" /\
  total_files (success_status fs_two) = Some (Z.of_nat (stored_file_count fs_two)).
Proof.
  apply (health_counts_stored_files fs_two (success_status fs_two) fs_two).
  - apply (bool_decide_unpack _). vm_compute. reflexivity.
  - vm_compute. reflexivity.
Defined.

(** C8 as stated fails: on a disk without the storage directory,
    [GET /health] creates it, so the file system changes. *)
Lemma health_check_read_only_counterexample :
  snd (health_check fs_no_storage) <> fs_no_storage.
Proof.
  intros H. apply (f_equal (fun m : fs => m !! UPLOAD_DIR)) in H.
  vm_compute in H. discriminate.
Qed.

(** C8 (amended): [GET /health] leaves the file system as it is, except
    that it creates the storage directory when nothing exists at its path;
    a second call gives the same answer and state as the first. *)
Theorem health_check_only_creates_dir s :
  (snd (health_check s) = s \/
   (s !! UPLOAD_DIR = None /\ snd (health_check s) = <[UPLOAD_DIR := Dir]> s)) /\
  health_check (snd (health_check s)) = health_check s.
Proof.
  destruct (s !! UPLOAD_DIR) as [n|] eqn:HD.
  - assert (E1 : snd (health_check s) = s).
    { unfold health_check, path_exists. rewrite HD. simpl.
      by destruct (listdir s UPLOAD_DIR). }
    rewrite E1. split; [by left | reflexivity].
  - assert (E : health_check s = health_check (<[UPLOAD_DIR := Dir]> s)).
    { unfold health_check, path_exists, mkdir. by rewrite HD, lookup_insert_eq. }
    assert (E1 : snd (health_check (<[UPLOAD_DIR := Dir]> s)) = <[UPLOAD_DIR := Dir]> s).
    { unfold health_check, path_exists. rewrite lookup_insert_eq. simpl.
      by destruct (listdir _ _). }
    rewrite E, E1. split; [by right | reflexivity].
Qed.

(** ** Further properties of the handlers *)

Lemma list_omap_filter_length (g : string -> option FileEntry) (f : string -> bool) names :
  (forall n, is_Some (g n) <-> f n = true) ->
  length (omap g names) = length (List.filter f names).
Proof.
  intros Hgf. induction names as [|n names IH]; [done|]. simpl.
  destruct (g n) eqn:Hg, (f n) eqn:Hf; simpl; try (f_equal; exact IH); try exact IH.
  - assert (Hs : is_Some (g n)) by (rewrite Hg; by eexists). apply Hgf in Hs. congruence.
  - apply Hgf in Hf. rewrite Hg in Hf. by destruct Hf.
Qed.

(** A successful listing and a health check of the same disk see the same
    directory: the health check changes nothing and counts what the listing
    returns. *)
Lemma list_files_health_total s :
  s !! UPLOAD_DIR = Some Dir ->
  exists lr, list_files s = Ok lr /\
    health_check s = (Ok {| st_status := "healthy";
                            st_message := "Audio Ingestion API is running";
                            total_files := Some (files_total lr) |}, s).
Proof.
  intros HD. destruct (listdir s UPLOAD_DIR) as [names|] eqn:L;
    [|unfold listdir in L; by rewrite HD in L].
  unfold list_files. rewrite L. eexists; split; [reflexivity|].
  unfold health_check, path_exists. rewrite HD. cbn -[listdir isfile join]. rewrite L.
  do 5 f_equal. simpl.
  symmetry. apply list_omap_filter_length. intros n. unfold isfile.
  destruct (s !! join UPLOAD_DIR n) as [[]|]; split; try done; intros [? Hx]; discriminate.
Qed.

Lemma list_files_Ok_dir s lr :
  list_files s = Ok lr -> s !! UPLOAD_DIR = Some Dir.
Proof.
  unfold list_files, listdir. by destruct (s !! UPLOAD_DIR) as [[]|].
Qed.

(** A 200 from [GET /files] means the storage directory exists (it is never
    created here), and its entries are exactly the regular files directly
    inside it, each with its size in MiB rounded to two decimals and its
    joined path; [total_files] is the number of entries. *)
Theorem list_files_entries s lr :
  list_files s = Ok lr ->
  s !! UPLOAD_DIR = Some Dir /\
  files_total lr = Z.of_nat (length (files lr)) /\
  forall e, e ∈ files lr <->
    exists n c, is_component n = true /\ s !! in_upload_dir n = Some (File c) /\
      e = {| entry_filename := n; size_mb := round2_mb (Z.of_nat (length c));
             path := in_upload_dir n |}.
Proof.
  intros Hok. pose proof (list_files_Ok_dir _ _ Hok) as HD. split; [done|].
  revert Hok. unfold list_files, listdir. rewrite HD. intros [= <-].
  split; [reflexivity|]. intros e. simpl.
  rewrite list_elem_of_omap. split.
  - intros (n & Hn & Hg). apply list_elem_of_omap in Hn as ([k v] & Hkv & Hc).
    simpl in Hc. destruct (child_name_Some _ _ Hc) as [-> Hcomp].
    rewrite join_upload_dir in Hg by (by apply is_component_no_sep).
    destruct (s !! in_upload_dir n) as [[c|]|] eqn:Hs; try discriminate.
    injection Hg as <-. by exists n, c.
  - intros (n & c & Hcomp & Hs & ->). exists n. split.
    + apply list_elem_of_omap. exists (in_upload_dir n, File c). split.
      * by apply elem_of_map_to_list.
      * by apply child_name_in_upload_dir.
    + rewrite join_upload_dir by (by apply is_component_no_sep). by rewrite Hs.
Qed.

Lemma list_files_entries_witness :
  fs_two !! UPLOAD_DIR = Some Dir /\
  files_total (listing_of fs_two) = Z.of_nat (length (files (listing_of fs_two))) /\
  forall e, e ∈ files (listing_of fs_two) <->
    exists n c, is_component n = true /\ fs_two !! in_upload_dir n = Some (File c) /\
      e = {| entry_filename := n; size_mb := round2_mb (Z.of_nat (length c));
             path := in_upload_dir n |}.
Proof. apply list_files_entries. vm_compute. reflexivity. Defined.

(** [GET /health] and [GET /files] agree: whenever the listing succeeds,
    the health check on the same disk succeeds without changing it and
    reports the listing's [total_files]. *)
Theorem health_agrees_with_list_files s lr :
  list_files s = Ok lr ->
  health_check s = (Ok {| st_status := "healthy";
                          st_message := "Audio Ingestion API is running";
                          total_files := Some (files_total lr) |}, s).
Proof.
  intros Hok. destruct (list_files_health_total s (list_files_Ok_dir _ _ Hok))
    as (lr' & Hl & Hh). rewrite Hok in Hl. injection Hl as <-. exact Hh.
Qed.

Lemma health_agrees_with_list_files_witness :
  health_check fs_two = (Ok {| st_status := "healthy";
                               st_message := "Audio Ingestion API is running";
                               total_files := Some (files_total (listing_of fs_two)) |}, fs_two).
Proof. apply health_agrees_with_list_files. vm_compute. reflexivity. Defined.

(** When a regular file occupies the storage path, [GET /health] answers
    503 and leaves the disk as it is: the existence test passes, so no
    [mkdir] is attempted, and [os.listdir] then fails. *)
Theorem health_503_when_storage_is_file s c :
  s !! UPLOAD_DIR = Some (File c) ->
  health_check s = (HTTPError 503 "Service unhealthy", s).
Proof.
  intros HD. unfold health_check, path_exists. rewrite HD. simpl.
  unfold listdir. by rewrite HD.
Qed.

Definition fs_blocked : fs := {[ "." := Dir; UPLOAD_DIR := File ten_bytes ]}.

Lemma health_503_when_storage_is_file_witness :
  health_check fs_blocked = (HTTPError 503 "Service unhealthy", fs_blocked).
Proof. apply (health_503_when_storage_is_file fs_blocked ten_bytes). reflexivity. Defined.

Lemma health_check_Ok_inv s r s1 :
  health_check s = (Ok r, s1) ->
  s1 !! UPLOAD_DIR = Some Dir /\ health_check s1 = (Ok r, s1).
Proof.
  intros E. unfold health_check, path_exists, mkdir in E.
  destruct (s !! UPLOAD_DIR) as [[c|]|] eqn:HD; simpl in E.
  - unfold listdir in E. rewrite HD in E. discriminate.
  - destruct (listdir s UPLOAD_DIR) eqn:L; [|discriminate].
    injection E as Er <-. split; [done|].
    unfold health_check, path_exists. rewrite HD. simpl. rewrite L. by rewrite Er.
  - destruct (listdir (<[UPLOAD_DIR:=Dir]> s) UPLOAD_DIR) eqn:L; [|discriminate].
    injection E as Er <-. split; [apply lookup_insert_eq|].
    unfold health_check, path_exists. rewrite lookup_insert_eq. simpl.
    rewrite L. by rewrite Er.
Qed.

(** After a successful [GET /health] (which may have created the storage
    directory), [GET /files] succeeds and lists as many files as the health
    check counted. *)
Theorem list_files_ok_after_health s r :
  fst (health_check s) = Ok r ->
  exists lr, list_files (snd (health_check s)) = Ok lr /\
    total_files r = Some (files_total lr).
Proof.
  destruct (health_check s) as [res s1] eqn:E. simpl. intros ->.
  destruct (health_check_Ok_inv _ _ _ E) as [HD E1].
  destruct (list_files_health_total s1 HD) as (lr & Hl & Hh).
  exists lr. split; [done|]. rewrite E1 in Hh. injection Hh as Hr. by rewrite Hr.
Qed.

Lemma list_files_ok_after_health_witness :
  exists lr, list_files (snd (health_check fs_no_storage)) = Ok lr /\
    total_files (match fst (health_check fs_no_storage) with
                 | Ok r => r
                 | HTTPError _ _ => {| st_status := ""; st_message := ""; total_files := None |}
                 end) = Some (files_total lr).
Proof.
  apply (list_files_ok_after_health fs_no_storage). vm_compute. reflexivity.
Defined.

(** The two outcomes of [upload_audio]. *)
Lemma upload_audio_shape io s file :
  (exists code d, upload_audio io s file = (HTTPError code d, s) /\
     (code = 400 \/ code = 413 \/ code = 500)%Z /\
     (code <> 500%Z ->
      file_extension_of (upload_filename file) ∉ SUPPORTED_AUDIO_FORMATS \/
      ~ (0 < Z.of_nat (length (upload_bytes file)) <= MAX_FILE_SIZE)%Z)) \/
  (file_extension_of (upload_filename file) ∈ SUPPORTED_AUDIO_FORMATS /\
   (0 < Z.of_nat (length (upload_bytes file)) <= MAX_FILE_SIZE)%Z /\
   exists s', open_write io s (join UPLOAD_DIR (upload_filename file)) (upload_bytes file)
              = inr s' /\ upload_audio io s file = (Ok (success_response file), s')).
Proof.
  destruct (bool_decide_reflect (file_extension_of (upload_filename file)
              ∈ SUPPORTED_AUDIO_FORMATS)) as [Hext|Hext].
  2:{ left. exists 400%Z, unsupported_detail. split; [|split; [by left|by left]].
      unfold upload_audio. by rewrite bool_decide_false. }
  destruct (Z.ltb_spec MAX_FILE_SIZE (Z.of_nat (length (upload_bytes file)))).
  { left. exists 413%Z, "File too large. Maximum size is 100.0MB".
    split; [|split; [by right; left|intros _; right; lia]].
    unfold upload_audio. rewrite bool_decide_true by done. simpl.
    by destruct (Z.ltb_spec MAX_FILE_SIZE (Z.of_nat (length (upload_bytes file)))); [|lia]. }
  destruct (Z.eqb_spec (Z.of_nat (length (upload_bytes file))) 0).
  { left. exists 400%Z, "Empty file uploaded".
    split; [|split; [by left|intros _; right; lia]].
    unfold upload_audio. rewrite bool_decide_true by done. simpl.
    destruct (Z.ltb_spec MAX_FILE_SIZE (Z.of_nat (length (upload_bytes file)))); [lia|].
    by destruct (Z.eqb_spec (Z.of_nat (length (upload_bytes file))) 0). }
  assert (Hlen : (0 < Z.of_nat (length (upload_bytes file)) <= MAX_FILE_SIZE)%Z) by lia.
  rewrite upload_audio_checked by done.
  destruct (open_write _ _ _ _) as [e|s'] eqn:Hw.
  - left. by eexists 500%Z, _; split; [|split; [right; right|]].
  - right. split; [done|]. split; [done|]. by exists s'.
Qed.

(** Every error [POST /upload] answers is a 400, 413 or 500; a 400 or 413
    comes from the format and size checks, before anything is written, and
    leaves the file system untouched. *)
Theorem upload_error_codes io s file code d s' :
  upload_audio io s file = (HTTPError code d, s') ->
  (code = 400 \/ code = 413 \/ code = 500)%Z /\
  (code <> 500%Z ->
   s' = s /\
   (file_extension_of (upload_filename file) ∉ SUPPORTED_AUDIO_FORMATS \/
    ~ (0 < Z.of_nat (length (upload_bytes file)) <= MAX_FILE_SIZE)%Z)).
Proof.
  destruct (upload_audio_shape io s file) as [(c & d' & E & Hc & Hn)|(_ & _ & s1 & _ & E)];
    rewrite E; intros [= -> -> ->]. split; [done|]. intros Hne. split; [done|]. by apply Hn.
Qed.

Lemma upload_error_codes_witness :
  (400 = 400 \/ 400 = 413 \/ 400 = 500)%Z /\
  ((400 <> 500)%Z ->
   fs0 = fs0 /\
   (file_extension_of "notes.txt" ∉ SUPPORTED_AUDIO_FORMATS \/
    ~ (0 < Z.of_nat (length ten_bytes) <= MAX_FILE_SIZE)%Z)).
Proof.
  apply (upload_error_codes None fs0
           {| upload_filename := "notes.txt"; upload_bytes := ten_bytes |} 400
           unsupported_detail fs0).
  vm_compute. reflexivity.
Defined.

(** An upload under a name without ['/'] touches no path but
    [UPLOAD_DIR/filename]: the stored path is a plain entry of the storage
    directory (a name that passes the format check is never ["."] or
    [".."]), so nothing else on disk is reachable through it. *)
Theorem upload_only_touches_target io s file q :
  has_sep (upload_filename file) = false ->
  q <> in_upload_dir (upload_filename file) ->
  snd (upload_audio io s file) !! q = s !! q.
Proof.
  intros Hsep Hq.
  destruct (upload_audio_shape io s file) as [(c & d & E & _)|(_ & _ & s1 & Hw & E)];
    rewrite E; [done|]. simpl.
  apply open_write_inr in Hw as (_ & _ & _ & ->).
  rewrite join_upload_dir by done. by rewrite lookup_insert_ne.
Qed.

Lemma upload_only_touches_target_witness :
  snd (upload_audio None fs_two song_file) !! "./uploaded_audio/a.mp3" =
  fs_two !! "./uploaded_audio/a.mp3".
Proof. apply upload_only_touches_target; vm_compute; [reflexivity|discriminate]. Defined.

(** Every 200 answer reports a size between 0.00 and 100.00 MiB. *)
Theorem upload_size_mb_bounds io s file r s' :
  upload_audio io s file = (Ok r, s') -> (0 <= file_size_mb r <= 10000)%Z.
Proof.
  intros (_ & Hlen & _ & ->)%upload_audio_Ok_inv. simpl.
  unfold MAX_FILE_SIZE in Hlen. unfold round2_mb.
  pose proof (round_half_even_spec (100 * Z.of_nat (length (upload_bytes file)))
                (1024 * 1024) ltac:(lia)). lia.
Qed.

Lemma upload_size_mb_bounds_witness :
  (0 <= file_size_mb (success_response song_file) <= 10000)%Z.
Proof.
  apply (upload_size_mb_bounds None fs0 song_file (success_response song_file)
           (<[ "./uploaded_audio/song.mp3" := File ten_bytes ]> fs0)).
  vm_compute. reflexivity.
Defined.

(** A successful upload under a plain name adds one to the number of
    stored files, or none when it replaces a file of that name. *)
Theorem upload_stored_count io s file r s' :
  upload_audio io s file = (Ok r, s') ->
  has_sep (upload_filename file) = false ->
  stored_file_count s' =
  (stored_file_count s + if isfile s (in_upload_dir (upload_filename file)) then 0 else 1)%nat.
Proof.
  intros (Hext & _ & Hw & _)%upload_audio_Ok_inv Hsep.
  apply open_write_inr in Hw as (_ & Hp & Hd & ->).
  destruct file as [name c]; simpl in *.
  assert (Hcomp : is_component name = true).
  { unfold is_component. rewrite Hsep.
    destruct (String.eqb_spec name ""); [|done].
    by apply supported_nonempty_name in Hext. }
  rewrite join_upload_dir in * by done.
  rewrite dirname_in_upload_dir in Hd by done.
  destruct Hd as [Hd | Hd]; [done|].
  unfold stored_file_count.
  rewrite lookup_insert_ne by (intros Heq; apply (in_upload_dir_ne name); by rewrite Heq).
  rewrite Hd.
  rewrite map_filter_insert_True
    by (unfold regular_in; simpl; by rewrite child_name_in_upload_dir).
  rewrite map_size_insert.
  unfold isfile.
  destruct (s !! in_upload_dir name) as [[c'|]|] eqn:Hs; [| done |].
  - rewrite (map_lookup_filter_Some_2 _ _ _ (File c') Hs)
      by (unfold regular_in; simpl; by rewrite child_name_in_upload_dir).
    simpl. lia.
  - rewrite map_lookup_filter_None_2 by (left; exact Hs). simpl. lia.
Qed.

Lemma upload_stored_count_witness :
  stored_file_count (<[ "./uploaded_audio/c.mp3" := File ten_bytes ]> fs_two) =
  (stored_file_count fs_two + if isfile fs_two (in_upload_dir "c.mp3") then 0 else 1)%nat.
Proof.
  apply (upload_stored_count None fs_two
           {| upload_filename := "c.mp3"; upload_bytes := ten_bytes |}
           (success_response {| upload_filename := "c.mp3"; upload_bytes := ten_bytes |})).
  - vm_compute. reflexivity.
  - reflexivity.
Defined.

Lemma lower_ascii_extsep c :
  (if ascii_dec extsep (lower_ascii c) then true else false) =
  (if ascii_dec extsep c then true else false).
Proof. destruct c as [[][][][][][][][]]; vm_compute; reflexivity. Qed.

Lemma lower_ascii_sep c :
  (if ascii_dec sep (lower_ascii c) then true else false) =
  (if ascii_dec sep c then true else false).
Proof. destruct c as [[][][][][][][][]]; vm_compute; reflexivity. Qed.

Lemma lower_ascii_idem c : lower_ascii (lower_ascii c) = lower_ascii c.
Proof. destruct c as [[][][][][][][][]]; vm_compute; reflexivity. Qed.

Lemma lower_idem s : lower (lower s) = lower s.
Proof. induction s; simpl; [done|]. by rewrite lower_ascii_idem, IHs. Qed.

Lemma length_lower s : String.length (lower s) = String.length s.
Proof. induction s; simpl; by f_equal. Qed.

Lemma substring_lower n m s : substring n m (lower s) = lower (substring n m s).
Proof.
  revert n m; induction s as [|a s IH]; intros n m.
  - by destruct n, m.
  - destruct n as [|n], m as [|m]; simpl; try done; by rewrite IH.
Qed.

Lemma rfind_from_lower c s i acc :
  (c = sep \/ c = extsep) -> rfind_from c (lower s) i acc = rfind_from c s i acc.
Proof.
  intros Hc. revert i acc; induction s as [|a s IH]; intros i acc; [done|].
  cbn [lower rfind_from]. rewrite IH. f_equal.
  assert (E : (if ascii_dec c (lower_ascii a) then true else false) =
              (if ascii_dec c a then true else false))
    by (destruct Hc as [-> | ->]; [apply lower_ascii_sep | apply lower_ascii_extsep]).
  destruct (ascii_dec c (lower_ascii a)), (ascii_dec c a); congruence.
Qed.

Lemma existsb_not_extsep_lower s :
  existsb (fun c => if ascii_dec c extsep then false else true) (list_ascii_of_string (lower s)) =
  existsb (fun c => if ascii_dec c extsep then false else true) (list_ascii_of_string s).
Proof.
  induction s as [|a s IH]; [done|]. cbn [lower list_ascii_of_string existsb].
  rewrite IH. f_equal.
  pose proof (lower_ascii_extsep a) as E.
  destruct (ascii_dec extsep (lower_ascii a)), (ascii_dec extsep a),
    (ascii_dec (lower_ascii a) extsep), (ascii_dec a extsep); congruence.
Qed.

Lemma splitext_lower p :
  splitext (lower p) = (lower (splitext p).1, lower (splitext p).2).
Proof.
  unfold splitext, rfind, slice, slice_from.
  rewrite !rfind_from_lower by auto.
  destruct (_ <? _)%Z; [|done].
  rewrite !substring_lower, existsb_not_extsep_lower, length_lower.
  by destruct (existsb _ _).
Qed.

(** The extension check of [POST /upload] ignores letter case in the whole
    client name: ["SONG.MP3"] and ["song.mp3"] get the same extension. *)
Theorem file_extension_case_insensitive name :
  file_extension_of (lower name) = file_extension_of name.
Proof.
  unfold file_extension_of. rewrite splitext_lower. simpl. apply lower_idem.
Qed.

Lemma string_app_cons a x y : String a x +:+ y = String a (x +:+ y).
Proof. reflexivity. Qed.

Lemma string_app_empty_r s : s +:+ "" = s.
Proof. induction s as [|a s IH]; [done|]. rewrite string_app_cons. by f_equal. Qed.

Lemma substring_split s n m :
  (String.length s <= n + m)%nat -> substring 0 n s +:+ substring n m s = s.
Proof.
  revert n m; induction s as [|a s IH]; intros n m Hl.
  - by destruct n, m.
  - destruct n as [|n]; simpl in *.
    + destruct m as [|m]; [lia|]. simpl. rewrite (substring_0_all s m) by lia.
      reflexivity.
    + rewrite string_app_cons. f_equal. apply IH. lia.
Qed.

(** [os.path.splitext] splits the client name without losing a character:
    root and extension concatenate back to the name. *)
Theorem splitext_concat p : (splitext p).1 +:+ (splitext p).2 = p.
Proof.
  unfold splitext. destruct (_ <? _)%Z eqn:Hlt.
  - destruct (existsb _ _); simpl.
    + unfold slice, slice_from. rewrite Z.sub_0_r.
      apply substring_split. lia.
    + apply string_app_empty_r.
  - apply string_app_empty_r.
Qed.
